(** * Database session runner (src/sql/main.go)

    A shallow embedding of the Go program [main] that opens a MySQL
    connection through [database/sql], inserts one user, reads all users
    back and prints them.

    The [database/sql] package and the driver are not part of the
    repository: they are taken as an interface ([Driver]) over an abstract
    world.  What the program itself does is modelled in full: the order of
    the library calls, the [if err != nil { log.Fatalln(err) }] checks,
    the two [defer]red closes, the [User] objects it allocates, and every
    line it prints.

    Go semantics used by the model:
    - [log.Fatalln(v)] writes [v] to the standard logger and then calls
      [os.Exit(1)]; [os.Exit] ends the process at once and deferred
      functions are not run;
    - a [defer]red call is pushed on a stack when the [defer] statement is
      executed, and the stack is run last-in first-out when the function
      returns. *)

From Stdlib Require Import ZArith String List Lia DecimalString.
From stdpp Require Import base list.
Import ListNotations.
Local Open Scope string_scope.
Local Open Scope list_scope.

(** ** Data *)

(** Go's [error] values as the program can meet them.  [ErrDriver] is any
    error reported by the driver or the server; the two others are the
    errors [Rows.Scan] builds itself. *)
Inductive error : Type :=
| ErrDriver (msg : string)
| ErrScanArity (ncols ndest : nat)
| ErrScanColumn (index : nat).

(** [type User struct { Id int; Username string; Password string }] *)
Record User : Type := mkUser {
  Id : Z;
  Username : string;
  Password : string
}.

(** [new(User)]: every field at its zero value. *)
Definition zero_User : User := mkUser 0 "" "".

(** [sql.Result] as returned by [Exec]: the two metadata calls, each of
    which may be unsupported by the driver. *)
Record Result : Type := mkResult {
  res_RowsAffected : error + Z;
  res_LastInsertId : error + Z
}.

(** [*sql.Rows]: the rows the cursor will still yield, each a list of
    column values, and the fault (if any) that ended the iteration.  [Next]
    answers false both when the rows are exhausted and when a fault
    stopped the iteration; [Err] tells the two apart. *)
Record Rows (Value : Type) : Type := mkRows {
  pending : list (list Value);
  fault : option error
}.
Arguments mkRows {Value} _ _.
Arguments pending {Value} _.
Arguments fault {Value} _.

(** The library calls the program makes. *)
Inductive Call : Type :=
| COpen (driverName dsn : string)
| CPing
| CExec (query : string) (args : list string)
| CRowsAffected
| CLastInsertId
| CQuery (query : string)
| CNext (more : bool)
| CScan
| CErr
| CRowsClose
| CDBClose.

(** What an observer of the process sees, in order: each library call with
    the error it returned, each [fmt.Println] on standard output, and the
    message [log.Fatalln] writes before it exits. *)
Inductive Event : Type :=
| EvCall (c : Call) (err : option error)
| EvStdout (line : string)
| EvStderr (e : error).

(** The eight places of [main] where a returned error is checked with
    [if err != nil { log.Fatalln(err) }] (lines 30, 45, 58, 68, 79, 89,
    116 and 129). *)
Inductive Site : Type :=
| AtOpen | AtPing | AtExec | AtRowsAffected | AtLastInsertId
| AtQuery | AtScan | AtErr.

(** The deferred calls of [main] (lines 39 and 97). *)
Inductive Deferred : Type :=
| DeferDBClose
| DeferRowsClose.

(** How the process ended: [main] returned, or [log.Fatalln] exited. *)
Inductive Outcome : Type :=
| Returned
| Fatal (at_ : Site) (e : error).

Definition exit_code (o : Outcome) : Z :=
  match o with Returned => 0 | Fatal _ _ => 1 end.

(** The program logs the error value it was given and has no error types
    of its own.  The four names below are the ones its description gives
    to an error, by the step that returned it: connecting or pinging,
    running a statement or iterating, reading insert metadata, scanning a
    row. *)
Inductive ErrorKind : Type :=
| ConnectionError | QueryError | ResultError | DecodeError.

Definition kind_at (at_ : Site) : ErrorKind :=
  match at_ with
  | AtOpen | AtPing => ConnectionError
  | AtExec | AtQuery | AtErr => QueryError
  | AtRowsAffected | AtLastInsertId => ResultError
  | AtScan => DecodeError
  end.

Definition fatal_kind (o : Outcome) : option ErrorKind :=
  match o with Returned => None | Fatal at_ _ => Some (kind_at at_) end.

(** A statement either goes on with a value or ends the process through
    [os.Exit(1)]. *)
Inductive Step (A : Type) : Type :=
| Go (a : A)
| Exit1 (at_ : Site) (e : error).
Arguments Go {A} _.
Arguments Exit1 {A} _ _.

(** ** The library interface *)

(** [database/sql] with a driver behind it, over a world [W] (server,
    network, connection pool) and the driver's column values [Value].
    [conv_int] and [conv_string] are the conversions [Scan] applies to
    store a column into an [*int] and into a [*string]. *)
Class Driver (W Value : Type) : Type := {
  drv_open : string -> string -> W -> option error * W;
  drv_ping : W -> option error * W;
  drv_exec : string -> list string -> W -> (error + Result) * W;
  drv_query : string -> W -> (error + Rows Value) * W;
  drv_rows_close : W -> option error * W;
  drv_close : W -> option error * W;
  conv_int : Value -> option Z;
  conv_string : Value -> option string
}.

(** ** Printing *)

(** [fmt.Println] of an [int64]: decimal digits, with a sign when
    negative. *)
Definition fmt_int (n : Z) : string := NilZero.string_of_int (Z.to_int n).

(** [fmt.Println(u)] for [u : *User]: the [%v] form of a pointer to a
    struct, [&{Id Username Password}]. *)
Definition fmt_User (u : User) : string :=
  "&{" ++ fmt_int (Id u) ++ " " ++ Username u ++ " " ++ Password u ++ "}".

Example fmt_int_samples :
  fmt_int 0 = "0" /\ fmt_int 42 = "42" /\ fmt_int (-7) = "-7".
Proof. repeat split. Qed.

Example fmt_User_sample :
  fmt_User (mkUser 1 "radovskyb" "password123")
  = "&{1 radovskyb password123}".
Proof. reflexivity. Qed.

(** ** The process state and its monad *)

Section Runner.

Context {W Value : Type} `{Drv : Driver W Value}.

(** The state of the running process: the world behind the library, what
    has been observed so far (oldest first), the [User] objects allocated
    so far (a pointer is an index in [heap]), and the stack of deferred
    calls (most recent first). *)
Record State : Type := mkState {
  world : W;
  trace : list Event;
  heap : list User;
  deferred : list Deferred
}.

Definition init (w : W) : State := mkState w [] [] [].

Definition M (A : Type) : Type := State -> Step A * State.

Definition ret {A} (a : A) : M A := fun s => (Go a, s).

Definition bind {A B} (m : M A) (k : A -> M B) : M B :=
  fun s =>
    match m s with
    | (Go a, s') => k a s'
    | (Exit1 at_ e, s') => (Exit1 at_ e, s')
    end.

Notation "x <- m ;; k" := (bind m (fun x => k))
  (at level 100, m at next level, right associativity).
Notation "m ;; k" := (bind m (fun _ => k))
  (at level 100, right associativity).

Definition emit (ev : Event) : M unit :=
  fun s => (Go tt, mkState (world s) (trace s ++ [ev]) (heap s) (deferred s)).

(** A library call that acts on the world and returns [r], of which
    [err_of r] is the error part. *)
Definition lib {R} (c : Call) (f : W -> R * W) (err_of : R -> option error)
  : M R :=
  fun s =>
    let (r, w') := f (world s) in
    (Go r, mkState w' (trace s ++ [EvCall c (err_of r)]) (heap s) (deferred s)).

Definition err_of_sum {A} (r : error + A) : option error :=
  match r with inl e => Some e | inr _ => None end.

(** [fmt.Println] *)
Definition Println (line : string) : M unit := emit (EvStdout line).

(** [log.Fatalln(err)]: log, then [os.Exit(1)]. *)
Definition Fatalln {A} (at_ : Site) (e : error) : M A :=
  fun s =>
    (Exit1 at_ e,
     mkState (world s) (trace s ++ [EvStderr e]) (heap s) (deferred s)).

(** [if err != nil { log.Fatalln(err) }] *)
Definition check (at_ : Site) (err : option error) : M unit :=
  match err with
  | Some e => Fatalln at_ e
  | None => ret tt
  end.

(** The same check for a call that returns [(v, err)]. *)
Definition check_val {A} (at_ : Site) (r : error + A) : M A :=
  match r with
  | inl e => Fatalln at_ e
  | inr v => ret v
  end.

(** [defer f()] *)
Definition defer (d : Deferred) : M unit :=
  fun s => (Go tt, mkState (world s) (trace s) (heap s) (d :: deferred s)).

(** Allocation of a [User]; the pointer is the index of the new object. *)
Definition alloc (u : User) : M nat :=
  fun s =>
    (Go (length (heap s)),
     mkState (world s) (trace s) (heap s ++ [u]) (deferred s)).

(** Reading through a pointer.  Every pointer of [main] comes from
    [alloc], so the default is never used. *)
Definition load (p : nat) : M User :=
  fun s => (Go (default zero_User (heap s !! p)), s).

(** Writing one field through a pointer. *)
Definition store (p : nat) (f : User -> User) : M unit :=
  fun s =>
    (Go tt,
     mkState (world s) (trace s)
             (<[p := f (default zero_User (heap s !! p))]> (heap s))
             (deferred s)).

Definition set_Id (n : Z) (u : User) : User :=
  mkUser n (Username u) (Password u).
Definition set_Username (x : string) (u : User) : User :=
  mkUser (Id u) x (Password u).
Definition set_Password (x : string) (u : User) : User :=
  mkUser (Id u) (Username u) x.

(** ** The library calls of [main] *)

Definition sql_Open (driverName dsn : string) : M (option error) :=
  lib (COpen driverName dsn) (drv_open driverName dsn) id.

Definition db_Ping : M (option error) := lib CPing drv_ping id.

Definition db_Exec (query : string) (args : list string)
  : M (error + Result) :=
  lib (CExec query args) (drv_exec query args) err_of_sum.

Definition Result_RowsAffected (res : Result) : M (error + Z) :=
  lib CRowsAffected (fun w => (res_RowsAffected res, w)) err_of_sum.

Definition Result_LastInsertId (res : Result) : M (error + Z) :=
  lib CLastInsertId (fun w => (res_LastInsertId res, w)) err_of_sum.

Definition db_Query (query : string) : M (error + Rows Value) :=
  lib (CQuery query) (drv_query query) err_of_sum.

Definition rows_Err (rows : Rows Value) : M (option error) :=
  lib CErr (fun w => (fault rows, w)) id.

(** [rows.Scan(&u.Id, &u.Username, &u.Password)] on the current row:
    the number of destinations must be the number of columns; then the
    columns are converted and stored one after the other, and the first
    conversion that fails stops the scan (the fields already stored
    stay). *)
Definition scan_into (row : list Value) (p : nat) : M (option error) :=
  match row with
  | [c0; c1; c2] =>
      match conv_int c0 with
      | None => ret (Some (ErrScanColumn 0))
      | Some n =>
          store p (set_Id n) ;;
          match conv_string c1 with
          | None => ret (Some (ErrScanColumn 1))
          | Some x =>
              store p (set_Username x) ;;
              match conv_string c2 with
              | None => ret (Some (ErrScanColumn 2))
              | Some y => store p (set_Password y) ;; ret None
              end
          end
      end
  | _ => ret (Some (ErrScanArity (length row) 3))
  end.

Definition rows_Scan (row : list Value) (p : nat) : M (option error) :=
  err <- scan_into row p ;;
  emit (EvCall CScan err) ;;
  ret err.

(** ** [main] *)

(** Lines 107-122: [for rows.Next() { ... }], by recursion on the rows the
    cursor still holds.  [Next] is observed through its answer only: what
    it does behind the interface (reading from the connection, closing the
    rows itself when it answers false) is not part of [world], which
    changes through the calls of [Driver] alone. *)
Fixpoint rows_loop (rs : list (list Value)) : M unit :=
  match rs with
  | [] => emit (EvCall (CNext false) None)
  | row :: rest =>
      emit (EvCall (CNext true) None) ;;
      u <- alloc zero_User ;;
      err <- rows_Scan row u ;;
      check AtScan err ;;
      v <- load u ;;
      Println (fmt_User v) ;;
      rows_loop rest
  end.

(** Lines 20-131, up to the return of [main]. *)
Definition main_body : M unit :=
  let dsn := "username:password@tcp(127.0.0.1:3306)/mydb" in
  err <- sql_Open "mysql" dsn ;;
  check AtOpen err ;;
  defer DeferDBClose ;;
  err <- db_Ping ;;
  check AtPing err ;;
  u <- alloc (mkUser 0 "radovskyb" "password123") ;;
  let query := "insert into users (username, password) values (?, ?)" in
  v <- load u ;;
  r <- db_Exec query [Username v; Password v] ;;
  res <- check_val AtExec r ;;
  r <- Result_RowsAffected res ;;
  numAffected <- check_val AtRowsAffected r ;;
  Println (fmt_int numAffected) ;;
  r <- Result_LastInsertId res ;;
  lastInsertId <- check_val AtLastInsertId r ;;
  Println (fmt_int lastInsertId) ;;
  r <- db_Query "select * from users" ;;
  rows <- check_val AtQuery r ;;
  defer DeferRowsClose ;;
  rows_loop (pending rows) ;;
  err <- rows_Err rows ;;
  check AtErr err.

(** A deferred call, run when [main] returns; the error each [Close]
    returns is dropped. *)
Definition run_deferred (d : Deferred) (s : State) : State :=
  match d with
  | DeferDBClose =>
      let (err, w') := drv_close (world s) in
      mkState w' (trace s ++ [EvCall CDBClose err]) (heap s) (deferred s)
  | DeferRowsClose =>
      let (err, w') := drv_rows_close (world s) in
      mkState w' (trace s ++ [EvCall CRowsClose err]) (heap s) (deferred s)
  end.

(** The deferred stack, most recent first. *)
Fixpoint unwind (ds : list Deferred) (s : State) : State :=
  match ds with
  | [] => s
  | d :: ds' => unwind ds' (run_deferred d s)
  end.

Definition return_from_main (s : State) : State :=
  unwind (deferred s)
         (mkState (world s) (trace s) (heap s) []).

(** The whole process: the outcome and the state it ends in.  The
    deferred calls run when [main] returns, not when it exits. *)
Definition main (w : W) : Outcome * State :=
  match main_body (init w) with
  | (Go _, s) => (Returned, return_from_main s)
  | (Exit1 at_ e, s) => (Fatal at_ e, s)
  end.

(** ** Observations on a run *)

Definition stdout_line (ev : Event) : option string :=
  match ev with EvStdout l => Some l | _ => None end.

Definition call_of (ev : Event) : option Call :=
  match ev with EvCall c _ => Some c | _ => None end.

Definition stdout (s : State) : list string := omap stdout_line (trace s).

Definition calls (s : State) : list Call := omap call_of (trace s).

(** [c] is the release [k], where [k] is [CDBClose] or [CRowsClose]. *)
Definition is_close (k : Call) (c : Call) : bool :=
  match k, c with
  | CDBClose, CDBClose => true
  | CRowsClose, CRowsClose => true
  | _, _ => false
  end.

(** How many times the program called [db.Close()], or [rows.Close()]. *)
Definition releases (k : Call) (s : State) : nat :=
  length (filter (fun c => is_close k c = true) (calls s)).

Definition is_Exec (c : Call) : bool :=
  match c with CExec _ _ => true | _ => false end.

(** How many statements were sent with [Exec]. *)
Definition exec_count (s : State) : nat :=
  length (filter (fun c => is_Exec c = true) (calls s)).

(** The library call a deferred call makes. *)
Definition close_call (d : Deferred) : Call :=
  match d with
  | DeferDBClose => CDBClose
  | DeferRowsClose => CRowsClose
  end.

(** The check that follows a call, if the program checks its error. *)
Definition site_of (c : Call) : option Site :=
  match c with
  | COpen _ _ => Some AtOpen
  | CPing => Some AtPing
  | CExec _ _ => Some AtExec
  | CRowsAffected => Some AtRowsAffected
  | CLastInsertId => Some AtLastInsertId
  | CQuery _ => Some AtQuery
  | CScan => Some AtScan
  | CErr => Some AtErr
  | CNext _ | CRowsClose | CDBClose => None
  end.

(** ** Runs, described by what the library answered

    [decode] is what a scan of one row into a new [User] comes to; [Run]
    lists the nine ways a run of [main] can go, one per check and one for
    the return, with the state each leaves.  [main_Run] below shows that
    every run of [main] is one of them. *)

Definition decode (row : list Value) : error + User :=
  match row with
  | [c0; c1; c2] =>
      match conv_int c0 with
      | None => inl (ErrScanColumn 0)
      | Some n =>
          match conv_string c1 with
          | None => inl (ErrScanColumn 1)
          | Some x =>
              match conv_string c2 with
              | None => inl (ErrScanColumn 2)
              | Some y => inr (mkUser n x y)
              end
          end
      end
  | _ => inl (ErrScanArity (length row) 3)
  end.

Definition decodes (row : list Value) (u : User) : Prop := decode row = inr u.

Definition the_dsn : string := "username:password@tcp(127.0.0.1:3306)/mydb".
Definition insert_sql : string :=
  "insert into users (username, password) values (?, ?)".
Definition select_sql : string := "select * from users".

(** The record built at line 50. *)
Definition new_user : User := mkUser 0 "radovskyb" "password123".

Definition ev_open (err : option error) : Event :=
  EvCall (COpen "mysql" the_dsn) err.
Definition ev_exec (err : option error) : Event :=
  EvCall (CExec insert_sql ["radovskyb"; "password123"]) err.
Definition ev_query (err : option error) : Event :=
  EvCall (CQuery select_sql) err.

(** One pass of the loop body for each decoded record. *)
Definition row_events (us : list User) : list Event :=
  flat_map (fun u => [EvCall (CNext true) None; EvCall CScan None;
                      EvStdout (fmt_User u)]) us.

Definition tr_connected : list Event := [ev_open None; EvCall CPing None].

Definition tr_inserted (n id : Z) : list Event :=
  tr_connected ++
  [ev_exec None;
   EvCall CRowsAffected None; EvStdout (fmt_int n);
   EvCall CLastInsertId None; EvStdout (fmt_int id)].

Definition tr_fetched (n id : Z) (us : list User) : list Event :=
  tr_inserted n id ++ ev_query None :: row_events us.

Inductive Run (w : W) : Outcome -> State -> Prop :=
| Run_open_fails e w1 :
    drv_open "mysql" the_dsn w = (Some e, w1) ->
    Run w (Fatal AtOpen e)
        (mkState w1 [ev_open (Some e); EvStderr e] [] [])
| Run_ping_fails w1 e w2 :
    drv_open "mysql" the_dsn w = (None, w1) ->
    drv_ping w1 = (Some e, w2) ->
    Run w (Fatal AtPing e)
        (mkState w2 [ev_open None; EvCall CPing (Some e); EvStderr e]
                 [] [DeferDBClose])
| Run_exec_fails w1 w2 e w3 :
    drv_open "mysql" the_dsn w = (None, w1) ->
    drv_ping w1 = (None, w2) ->
    drv_exec insert_sql ["radovskyb"; "password123"] w2 = (inl e, w3) ->
    Run w (Fatal AtExec e)
        (mkState w3 (tr_connected ++ [ev_exec (Some e); EvStderr e])
                 [new_user] [DeferDBClose])
| Run_affected_fails w1 w2 res w3 e :
    drv_open "mysql" the_dsn w = (None, w1) ->
    drv_ping w1 = (None, w2) ->
    drv_exec insert_sql ["radovskyb"; "password123"] w2 = (inr res, w3) ->
    res_RowsAffected res = inl e ->
    Run w (Fatal AtRowsAffected e)
        (mkState w3
                 (tr_connected ++
                  [ev_exec None; EvCall CRowsAffected (Some e); EvStderr e])
                 [new_user] [DeferDBClose])
| Run_lastid_fails w1 w2 res w3 n e :
    drv_open "mysql" the_dsn w = (None, w1) ->
    drv_ping w1 = (None, w2) ->
    drv_exec insert_sql ["radovskyb"; "password123"] w2 = (inr res, w3) ->
    res_RowsAffected res = inr n ->
    res_LastInsertId res = inl e ->
    Run w (Fatal AtLastInsertId e)
        (mkState w3
                 (tr_connected ++
                  [ev_exec None;
                   EvCall CRowsAffected None; EvStdout (fmt_int n);
                   EvCall CLastInsertId (Some e); EvStderr e])
                 [new_user] [DeferDBClose])
| Run_query_fails w1 w2 res w3 n id e w4 :
    drv_open "mysql" the_dsn w = (None, w1) ->
    drv_ping w1 = (None, w2) ->
    drv_exec insert_sql ["radovskyb"; "password123"] w2 = (inr res, w3) ->
    res_RowsAffected res = inr n ->
    res_LastInsertId res = inr id ->
    drv_query select_sql w3 = (inl e, w4) ->
    Run w (Fatal AtQuery e)
        (mkState w4 (tr_inserted n id ++ [ev_query (Some e); EvStderr e])
                 [new_user] [DeferDBClose])
| Run_scan_fails w1 w2 res w3 n id rows w4 pre bad post us e u' :
    drv_open "mysql" the_dsn w = (None, w1) ->
    drv_ping w1 = (None, w2) ->
    drv_exec insert_sql ["radovskyb"; "password123"] w2 = (inr res, w3) ->
    res_RowsAffected res = inr n ->
    res_LastInsertId res = inr id ->
    drv_query select_sql w3 = (inr rows, w4) ->
    pending rows = pre ++ bad :: post ->
    Forall2 decodes pre us ->
    decode bad = inl e ->
    Run w (Fatal AtScan e)
        (mkState w4
                 (tr_fetched n id us ++
                  [EvCall (CNext true) None; EvCall CScan (Some e);
                   EvStderr e])
                 (new_user :: us ++ [u'])
                 [DeferRowsClose; DeferDBClose])
| Run_err_fails w1 w2 res w3 n id rows w4 us e :
    drv_open "mysql" the_dsn w = (None, w1) ->
    drv_ping w1 = (None, w2) ->
    drv_exec insert_sql ["radovskyb"; "password123"] w2 = (inr res, w3) ->
    res_RowsAffected res = inr n ->
    res_LastInsertId res = inr id ->
    drv_query select_sql w3 = (inr rows, w4) ->
    Forall2 decodes (pending rows) us ->
    fault rows = Some e ->
    Run w (Fatal AtErr e)
        (mkState w4
                 (tr_fetched n id us ++
                  [EvCall (CNext false) None; EvCall CErr (Some e);
                   EvStderr e])
                 (new_user :: us)
                 [DeferRowsClose; DeferDBClose])
| Run_returns w1 w2 res w3 n id rows w4 us ec w5 ed w6 :
    drv_open "mysql" the_dsn w = (None, w1) ->
    drv_ping w1 = (None, w2) ->
    drv_exec insert_sql ["radovskyb"; "password123"] w2 = (inr res, w3) ->
    res_RowsAffected res = inr n ->
    res_LastInsertId res = inr id ->
    drv_query select_sql w3 = (inr rows, w4) ->
    Forall2 decodes (pending rows) us ->
    fault rows = None ->
    drv_rows_close w4 = (ec, w5) ->
    drv_close w5 = (ed, w6) ->
    Run w Returned
        (mkState w6
                 (tr_fetched n id us ++
                  [EvCall (CNext false) None; EvCall CErr None;
                   EvCall CRowsClose ec; EvCall CDBClose ed])
                 (new_user :: us)
                 []).

(** A row with exactly three columns, the first one convertible to an
    [int] and the two others to a [string]. *)
Definition well_typed_row (row : list Value) : bool :=
  match row with
  | [c0; c1; c2] =>
      match conv_int c0, conv_string c1, conv_string c2 with
      | Some _, Some _, Some _ => true
      | _, _, _ => false
      end
  | _ => false
  end.

(** [Next] answering false: the loop is left. *)
Definition loop_exit (ev : Event) : bool :=
  match ev with
  | EvCall (CNext false) _ => true
  | _ => false
  end.

(** A trace with no event that satisfies [P]. *)
Definition free_of (P : Event -> bool) (l : list Event) : Prop :=
  forallb (fun ev => negb (P ev)) l = true.

(** A checked call that returned an error. *)
Definition checked_failure (ev : Event) : bool :=
  match ev with
  | EvCall c (Some _) =>
      match site_of c with Some _ => true | None => false end
  | _ => false
  end.

End Runner.

Arguments State : clear implicits.
Arguments mkState {W} _ _ _ _.

(** ** An in-memory database behind the interface

    A small server used to run [main] on concrete worlds: a [users] table
    held as raw rows, with switches for the failures a real server can
    show. *)
Module MemDB.

Inductive Value : Type :=
| VInt (n : Z)
| VText (s : string)
| VNull.

Record DB : Type := mkDB {
  driver_known : bool;          (* the driver name is registered *)
  reachable : bool;             (* the host answers *)
  metadata : bool;              (* the driver reports insert metadata *)
  users : list (list Value);    (* the rows of the table *)
  stream_fault : option error;  (* a fault that ends every iteration *)
  open_handles : nat;
  open_cursors : nat
}.

Definition with_users (rows : list (list Value)) (d : DB) : DB :=
  mkDB (driver_known d) (reachable d) (metadata d) rows (stream_fault d)
       (open_handles d) (open_cursors d).

Definition with_handles (n : nat) (d : DB) : DB :=
  mkDB (driver_known d) (reachable d) (metadata d) (users d) (stream_fault d)
       n (open_cursors d).

Definition with_cursors (n : nat) (d : DB) : DB :=
  mkDB (driver_known d) (reachable d) (metadata d) (users d) (stream_fault d)
       (open_handles d) n.

Definition open (driverName dsn : string) (d : DB) : option error * DB :=
  if driver_known d
  then (None, with_handles (S (open_handles d)) d)
  else (Some (ErrDriver "sql: unknown driver"), d).

Definition ping (d : DB) : option error * DB :=
  if reachable d then (None, d)
  else (Some (ErrDriver "dial tcp: connection refused"), d).

Definition unsupported : error := ErrDriver "not supported by this driver".

Definition exec (query : string) (args : list string) (d : DB)
  : (error + Result) * DB :=
  match args with
  | [u; p] =>
      let id := Z.of_nat (S (length (users d))) in
      let res :=
        if metadata d then mkResult (inr 1%Z) (inr id)
        else mkResult (inl unsupported) (inl unsupported) in
      (inr res, with_users (users d ++ [[VInt id; VText u; VText p]]) d)
  | _ => (inl (ErrDriver "wrong number of arguments"), d)
  end.

Definition query (q : string) (d : DB) : (error + Rows Value) * DB :=
  (inr (mkRows (users d) (stream_fault d)),
   with_cursors (S (open_cursors d)) d).

Definition rows_close (d : DB) : option error * DB :=
  (None, with_cursors (pred (open_cursors d)) d).

Definition close (d : DB) : option error * DB :=
  (None, with_handles (pred (open_handles d)) d).

Definition to_int (v : Value) : option Z :=
  match v with VInt n => Some n | _ => None end.

Definition to_string (v : Value) : option string :=
  match v with VText s => Some s | _ => None end.

#[export] Instance driver : Driver DB Value := {
  drv_open := open;
  drv_ping := ping;
  drv_exec := exec;
  drv_query := query;
  drv_rows_close := rows_close;
  drv_close := close;
  conv_int := to_int;
  conv_string := to_string
}.

(** A server in working order with an empty table. *)
Definition fresh : DB := mkDB true true true [] None 0 0.

(** The same server behind an unreachable host. *)
Definition unreachable : DB := mkDB true false true [] None 0 0.

End MemDB.

(** ** A scripted library

    A second implementation of the interface, for worlds in which every
    answer of the library is fixed beforehand. *)
Module Scripted.

Record Script : Type := mkScript {
  on_open : option error;
  on_ping : option error;
  on_exec : error + Result;
  on_query : error + Rows MemDB.Value;
  on_rows_close : option error;
  on_close : option error
}.

#[export] Instance driver : Driver Script MemDB.Value := {
  drv_open := fun _ _ sc => (on_open sc, sc);
  drv_ping := fun sc => (on_ping sc, sc);
  drv_exec := fun _ _ sc => (on_exec sc, sc);
  drv_query := fun _ sc => (on_query sc, sc);
  drv_rows_close := fun sc => (on_rows_close sc, sc);
  drv_close := fun sc => (on_close sc, sc);
  conv_int := MemDB.to_int;
  conv_string := MemDB.to_string
}.

(** Everything succeeds; the query finds the given rows and the iteration
    ends with the given fault. *)
Definition answering (res : Result) (rows : list (list MemDB.Value))
    (stop : option error) : Script :=
  mkScript None None (inr res) (inr (mkRows rows stop)) None None.

End Scripted.

(** ** Worlds used below *)

(** The error of the unreachable host. *)
Definition refused : error := ErrDriver "dial tcp: connection refused".

(** A table that already holds a row of two columns. *)
Definition short_row_db : MemDB.DB :=
  MemDB.with_users [[MemDB.VInt 5; MemDB.VText "a"]] MemDB.fresh.

Definition one_insert : Result := mkResult (inr 1%Z) (inr 1%Z).

Definition eof : error := ErrDriver "unexpected EOF".

Definition alice_row : list MemDB.Value :=
  [MemDB.VInt 1; MemDB.VText "alice"; MemDB.VText "secret"].

Definition alice : User := mkUser 1 "alice" "secret".

(** One row, then the end of the rows. *)
Definition whole_stream : Scripted.Script :=
  Scripted.answering one_insert [alice_row] None.

(** One row, then a fault. *)
Definition broken_stream : Scripted.Script :=
  Scripted.answering one_insert [alice_row] (Some eof).

(** No row at all. *)
Definition empty_table : Scripted.Script :=
  Scripted.answering one_insert [] None.

(** An insert whose identifier the driver cannot report. *)
Definition no_last_id : Scripted.Script :=
  Scripted.answering (mkResult (inr 1%Z) (inl MemDB.unsupported)) [] None.

(** An insert whose row count the driver cannot report. *)
Definition no_row_count : Scripted.Script :=
  Scripted.answering (mkResult (inl MemDB.unsupported) (inr 1%Z)) [] None.

(** Everything succeeds, and both closes report an error. *)
Definition failing_closes : Scripted.Script :=
  Scripted.mkScript None None (inr one_insert)
                    (inr (mkRows [alice_row] None)) (Some eof) (Some refused).

(** A row whose identifier is NULL, between two good rows. *)
Definition null_id_row : list MemDB.Value :=
  [MemDB.VNull; MemDB.VText "bob"; MemDB.VText "hunter2"].

Definition bad_second_row : Scripted.Script :=
  Scripted.answering one_insert [alice_row; null_id_row; alice_row] None.

(** * Properties of the runner *)

Section RunnerFacts.

Context {W Value : Type} `{Drv : Driver W Value}.

Implicit Types (s : State W) (w : W) (us : list User).

(** ** Scanning a row into a new record *)

Lemma lookup_fresh (h : list User) (u : User) :
  (h ++ [u]) !! length h = Some u.
Proof. apply list_lookup_middle. reflexivity. Qed.

Lemma insert_fresh (h : list User) (u v : User) :
  <[length h := v]> (h ++ [u]) = h ++ [v].
Proof.
  replace (length h) with (length h + 0)%nat by lia.
  rewrite insert_app_r. reflexivity.
Qed.

(** Storing through the pointer to the newest object changes that object
    only. *)
Lemma store_fresh w tr h u ds f :
  store (length h) f (mkState w tr (h ++ [u]) ds)
  = (Go tt, mkState w tr (h ++ [f u]) ds).
Proof.
  unfold store; cbn [world trace heap deferred].
  rewrite lookup_fresh, insert_fresh. reflexivity.
Qed.

(** A scan into a record just made with [new(User)] fails exactly when
    [decode] does, with the same error, and leaves the decoded record when
    it succeeds. *)
Lemma scan_into_fresh row w tr h ds :
  exists u',
    scan_into row (length h) (mkState w tr (h ++ [zero_User]) ds)
    = (Go (err_of_sum (decode row)), mkState w tr (h ++ [u']) ds)
    /\ (forall u, decode row = inr u -> u' = u).
Proof.
  unfold scan_into, decode.
  destruct row as [|c0 [|c1 [|c2 [|c3 row]]]];
    try (exists zero_User; split; [reflexivity | discriminate]).
  destruct (conv_int c0) as [n|];
    [| exists zero_User; split; [reflexivity | discriminate]].
  unfold bind at 1. rewrite store_fresh.
  destruct (conv_string c1) as [x|];
    [| eexists; split; [reflexivity | discriminate]].
  unfold bind at 1. rewrite store_fresh.
  destruct (conv_string c2) as [y|];
    [| eexists; split; [reflexivity | discriminate]].
  unfold bind at 1. rewrite store_fresh.
  eexists; split; [reflexivity |].
  intros u Hu. injection Hu as <-. reflexivity.
Qed.

Lemma rows_Scan_fresh row w tr h ds :
  exists u',
    rows_Scan row (length h) (mkState w tr (h ++ [zero_User]) ds)
    = (Go (err_of_sum (decode row)),
       mkState w (tr ++ [EvCall CScan (err_of_sum (decode row))])
               (h ++ [u']) ds)
    /\ (forall u, decode row = inr u -> u' = u).
Proof.
  destruct (scan_into_fresh row w tr h ds) as (u' & Hscan & Hu').
  exists u'. split; [| exact Hu'].
  unfold rows_Scan, bind. rewrite Hscan. reflexivity.
Qed.

(** ** The loop *)

(** One iteration on a row that decodes. *)
Lemma rows_loop_cons_ok row rest u w tr h ds :
  decode row = inr u ->
  rows_loop (row :: rest) (mkState w tr h ds)
  = rows_loop rest
      (mkState w (tr ++ [EvCall (CNext true) None; EvCall CScan None;
                         EvStdout (fmt_User u)])
               (h ++ [u]) ds).
Proof.
  intros Hdec.
  destruct (rows_Scan_fresh row w (tr ++ [EvCall (CNext true) None]) h ds) as (u' & Hscan & Hu').
  rewrite (Hu' u Hdec) in Hscan. rewrite Hdec in Hscan.
  cbn [rows_loop]. unfold bind at 1. cbn [emit world trace heap deferred].
  unfold bind at 1. cbn [alloc world trace heap deferred].
  unfold bind at 1. rewrite Hscan. cbn [err_of_sum check].
  unfold bind at 1. cbn [ret].
  unfold bind at 1. cbn [load world trace heap deferred].
  rewrite lookup_fresh. cbn [default].
  unfold bind at 1. cbn [Println emit world trace heap deferred].
  rewrite <- !app_assoc. reflexivity.
Qed.

(** One iteration on a row that does not decode. *)
Lemma rows_loop_cons_bad row rest e w tr h ds :
  decode row = inl e ->
  exists u',
    rows_loop (row :: rest) (mkState w tr h ds)
    = (Exit1 AtScan e,
       mkState w (tr ++ [EvCall (CNext true) None; EvCall CScan (Some e);
                         EvStderr e])
               (h ++ [u']) ds).
Proof.
  intros Hdec.
  destruct (rows_Scan_fresh row w (tr ++ [EvCall (CNext true) None]) h ds) as (u' & Hscan & _).
  rewrite Hdec in Hscan. exists u'.
  cbn [rows_loop]. unfold bind at 1. cbn [emit world trace heap deferred].
  unfold bind at 1. cbn [alloc world trace heap deferred].
  unfold bind at 1. rewrite Hscan. cbn [err_of_sum check].
  unfold bind at 1. cbn [Fatalln world trace heap deferred].
  rewrite <- !app_assoc. reflexivity.
Qed.

Lemma row_events_app us vs :
  row_events (us ++ vs) = row_events us ++ row_events vs.
Proof. unfold row_events. apply flat_map_app. Qed.

(** The loop either decodes and prints every row and then sees [Next]
    answer false, or exits at the first row that does not decode. *)
Lemma rows_loop_spec rs : forall w tr h ds,
  (exists us,
      Forall2 decodes rs us /\
      rows_loop rs (mkState w tr h ds)
      = (Go tt,
         mkState w (tr ++ row_events us ++ [EvCall (CNext false) None])
                 (h ++ us) ds))
  \/
  (exists pre bad post us e u',
      rs = pre ++ bad :: post /\
      Forall2 decodes pre us /\
      decode bad = inl e /\
      rows_loop rs (mkState w tr h ds)
      = (Exit1 AtScan e,
         mkState w (tr ++ row_events us ++
                    [EvCall (CNext true) None; EvCall CScan (Some e);
                     EvStderr e])
                 (h ++ us ++ [u']) ds)).
Proof.
  induction rs as [|row rest IH]; intros w tr h ds.
  - left. exists []. split; [constructor |].
    cbn. rewrite app_nil_r. reflexivity.
  - destruct (decode row) as [e|u] eqn:Hdec.
    + right.
      destruct (rows_loop_cons_bad row rest e w tr h ds Hdec) as (u' & Hrun).
      exists [], row, rest, [], e, u'.
      repeat split; [constructor | exact Hdec | exact Hrun].
    + rewrite (rows_loop_cons_ok row rest u w tr h ds Hdec).
      destruct (IH w (tr ++ [EvCall (CNext true) None; EvCall CScan None;
                             EvStdout (fmt_User u)]) (h ++ [u]) ds)
        as [(us & Hall & Hrun) | (pre & bad & post & us & e & u' &
                                   Hrs & Hall & Hbad & Hrun)].
      * left. exists (u :: us). split; [constructor; assumption |].
        rewrite Hrun. rewrite <- !app_assoc. reflexivity.
      * right. exists (row :: pre), bad, post, (u :: us), e, u'.
        repeat split; [rewrite Hrs; reflexivity | constructor; assumption
                      | exact Hbad |].
        rewrite Hrun. rewrite <- !app_assoc. reflexivity.
Qed.

(** ** Every run of [main] is one of the nine runs *)

Ltac exec_step :=
  cbv beta iota zeta delta
    [bind sql_Open db_Ping db_Exec Result_RowsAffected Result_LastInsertId
     db_Query rows_Err lib emit alloc load defer check check_val ret
     Fatalln Println world trace heap deferred init id err_of_sum
     fst snd return_from_main unwind run_deferred];
  cbn [app length lookup list_lookup default Username Password].

Lemma main_Run w : Run w (main w).1 (main w).2.
Proof.
  unfold main, main_body. exec_step.
  match goal with
  | |- context [drv_open ?a ?b w] =>
      destruct (drv_open a b w) as [[e|] w1] eqn:Hopen
  end; exec_step.
  { eapply Run_open_fails; eassumption. }
  destruct (drv_ping w1) as [[e|] w2] eqn:Hping; exec_step.
  { eapply Run_ping_fails; eassumption. }
  match goal with
  | |- context [drv_exec ?a ?b w2] =>
      destruct (drv_exec a b w2) as [[e|res] w3] eqn:Hexec
  end; exec_step.
  { eapply Run_exec_fails; eassumption. }
  destruct (res_RowsAffected res) as [e|n] eqn:Haff; exec_step.
  { eapply Run_affected_fails; eassumption. }
  destruct (res_LastInsertId res) as [e|lid] eqn:Hlid; exec_step.
  { eapply Run_lastid_fails; eassumption. }
  match goal with
  | |- context [drv_query ?a w3] =>
      destruct (drv_query a w3) as [[e|rows] w4] eqn:Hquery
  end; exec_step.
  { eapply Run_query_fails; eassumption. }
  match goal with
  | |- context [rows_loop ?rs (mkState ?w ?tr ?h ?ds)] =>
      destruct (rows_loop_spec rs w tr h ds)
        as [(us & Hall & Hloop)
           | (pre & bad & post & us & e & u' & Hrs & Hall & Hbad & Hloop)];
      rewrite Hloop
  end; exec_step.
  2: { eapply Run_scan_fails; eassumption. }
  destruct (fault rows) as [e|] eqn:Hfault; exec_step.
  { rewrite <- !app_assoc; cbn [app]. eapply Run_err_fails; eassumption. }
  destruct (drv_rows_close w4) as [ec w5] eqn:Hrc; exec_step.
  destruct (drv_close w5) as [ed w6] eqn:Hdc; exec_step.
  rewrite <- !app_assoc; cbn [app].
  eapply Run_returns; eassumption.
Qed.

Lemma main_inv w o s : main w = (o, s) -> Run w o s.
Proof. intros H. pose proof (main_Run w) as HR. rewrite H in HR. exact HR. Qed.

(** ** Traces *)

Lemma free_of_app P l1 l2 :
  free_of P l1 -> free_of P l2 -> free_of P (l1 ++ l2).
Proof.
  unfold free_of. intros H1 H2. rewrite forallb_app, H1, H2. reflexivity.
Qed.

(** In a trace without [P]-events, no position holds one. *)
Lemma free_of_no_split P l pre y post :
  free_of P l -> P y = true -> l = pre ++ y :: post -> False.
Proof.
  unfold free_of. intros Hl Hy ->.
  rewrite forallb_app in Hl. cbn in Hl. rewrite Hy in Hl.
  cbn in Hl. rewrite andb_false_r in Hl. discriminate.
Qed.

(** If [x] is the only possible [P]-event of [l ++ x :: tl], a [P]-event
    of that trace is [x] itself. *)
Lemma split_first P l x tl pre y post :
  free_of P l -> free_of P tl -> P y = true ->
  l ++ x :: tl = pre ++ y :: post ->
  pre = l /\ y = x /\ post = tl.
Proof.
  intros Hl Htl Hy. revert pre.
  induction l as [|a l IH]; intros [|p pre] Heq; cbn in Heq.
  - injection Heq as -> ->. auto.
  - injection Heq as _ Heq. exfalso.
    exact (free_of_no_split P tl pre y post Htl Hy Heq).
  - injection Heq as <- _. exfalso.
    unfold free_of in Hl. cbn in Hl. rewrite Hy in Hl. discriminate.
  - injection Heq as -> Heq.
    unfold free_of in Hl. cbn in Hl. apply andb_prop in Hl as [_ Hl].
    destruct (IH Hl pre Heq) as (-> & -> & ->). auto.
Qed.

Lemma row_events_no_failure us : free_of checked_failure (row_events us).
Proof. induction us as [|u us IH]; [reflexivity | exact IH]. Qed.

Lemma row_events_no_exit us : free_of loop_exit (row_events us).
Proof. induction us as [|u us IH]; [reflexivity | exact IH]. Qed.

Lemma tr_fetched_no_failure n lid us :
  free_of checked_failure (tr_fetched n lid us).
Proof.
  unfold tr_fetched. apply free_of_app; [reflexivity |].
  exact (row_events_no_failure us).
Qed.

Lemma tr_fetched_no_exit n lid us : free_of loop_exit (tr_fetched n lid us).
Proof.
  unfold tr_fetched. apply free_of_app; [reflexivity |].
  exact (row_events_no_exit us).
Qed.

Lemma close_not_checked c err :
  site_of c = None -> checked_failure (EvCall c err) = false.
Proof. intros H. destruct err; cbn; [rewrite H |]; reflexivity. Qed.

(** The trace of a run: no checked call fails before the last one, and a
    failed one is followed by the log line only. *)
Lemma Run_trace_shape w o s :
  Run w o s ->
  match o with
  | Returned => free_of checked_failure (trace s)
  | Fatal at_ e =>
      exists l c,
        trace s = l ++ [EvCall c (Some e); EvStderr e] /\
        free_of checked_failure l /\
        site_of c = Some at_
  end.
Proof.
  destruct 1; cbn [trace].
  - exists [], (COpen "mysql" the_dsn). repeat split.
  - exists [ev_open None], CPing. repeat split.
  - exists tr_connected, (CExec insert_sql ["radovskyb"; "password123"]).
    repeat split.
  - exists (tr_connected ++ [ev_exec None]), CRowsAffected. repeat split.
  - exists (tr_connected ++
            [ev_exec None; EvCall CRowsAffected None; EvStdout (fmt_int n)]),
      CLastInsertId. repeat split.
  - exists (tr_inserted n id), (CQuery select_sql). repeat split.
  - exists (tr_fetched n id us ++ [EvCall (CNext true) None]), CScan.
    split; [rewrite <- app_assoc; reflexivity | split; [| reflexivity]].
    apply free_of_app; [apply tr_fetched_no_failure | reflexivity].
  - exists (tr_fetched n id us ++ [EvCall (CNext false) None]), CErr.
    split; [rewrite <- app_assoc; reflexivity | split; [| reflexivity]].
    apply free_of_app; [apply tr_fetched_no_failure | reflexivity].
  - apply free_of_app; [apply tr_fetched_no_failure |].
    unfold free_of. cbn [forallb].
    rewrite (close_not_checked CRowsClose ec), (close_not_checked CDBClose ed)
      by reflexivity.
    reflexivity.
Qed.

(** ** Observations *)

Lemma stdout_row_events us :
  omap stdout_line (row_events us) = map fmt_User us.
Proof.
  induction us as [|u us IH]; [reflexivity |].
  change (fmt_User u :: omap stdout_line (row_events us)
          = fmt_User u :: map fmt_User us).
  rewrite IH. reflexivity.
Qed.

Lemma stdout_tr_fetched n lid us tl :
  omap stdout_line (tr_fetched n lid us ++ tl)
  = fmt_int n :: fmt_int lid :: map fmt_User us ++ omap stdout_line tl.
Proof.
  unfold tr_fetched. rewrite !omap_app.
  change (omap stdout_line (ev_query None :: row_events us))
    with (omap stdout_line (row_events us)).
  rewrite stdout_row_events. reflexivity.
Qed.

Lemma calls_row_events (P : Call -> bool) us :
  P (CNext true) = false -> P CScan = false ->
  filter (fun c => P c = true) (omap call_of (row_events us)) = [].
Proof.
  intros HN HS. induction us as [|u us IH]; [reflexivity |].
  change (filter (fun c => P c = true)
            (CNext true :: CScan :: omap call_of (row_events us)) = []).
  rewrite !filter_cons, HN, HS. cbn. exact IH.
Qed.

Lemma calls_tr_fetched (P : Call -> bool) n lid us tl :
  P (CNext true) = false -> P CScan = false ->
  filter (fun c => P c = true) (omap call_of (tr_fetched n lid us ++ tl))
  = filter (fun c => P c = true) (omap call_of (tr_inserted n lid))
    ++ filter (fun c => P c = true) [CQuery select_sql]
    ++ filter (fun c => P c = true) (omap call_of tl).
Proof.
  intros HN HS. unfold tr_fetched. rewrite !omap_app, !filter_app.
  change (omap call_of (ev_query None :: row_events us))
    with ([CQuery select_sql] ++ omap call_of (row_events us)).
  rewrite filter_app, calls_row_events by assumption.
  rewrite app_nil_r, <- app_assoc. reflexivity.
Qed.

(** Two equations for the same library answer. *)
Ltac agree :=
  repeat match goal with
         | H1 : ?x = _, H2 : ?x = _ |- _ =>
             rewrite H1 in H2;
             first [ discriminate H2 | injection H2 as H2; try subst ]
         | H : (_, _) = (_, _) |- _ => injection H as H; try subst
         | H : @inl _ _ _ = inl _ |- _ => injection H as H; try subst
         | H : @inr _ _ _ = inr _ |- _ => injection H as H; try subst
         | H : Some _ = Some _ |- _ => injection H as H; try subst
         | H : Some _ = None |- _ => discriminate H
         | H : None = Some _ |- _ => discriminate H
         | H : @inl _ _ _ = inr _ |- _ => discriminate H
         | H : @inr _ _ _ = inl _ |- _ => discriminate H
         end.

(** ** Fail-fast *)

(** C2. At each of the eight checked steps (connect, ping, insert, rows
    affected, last insert id, query, scan of a row, iteration error), an
    error returned by the step ends the process there: wherever a checked
    call with an error stands in the trace of a run, the run is fatal with
    that error at that step, and nothing follows the call but the line
    [log.Fatalln] writes.  So no later step runs, no call is made again,
    and the exit status is 1. *)
Theorem first_error_is_fatal w pre c e post at_ :
  trace (main w).2 = pre ++ EvCall c (Some e) :: post ->
  site_of c = Some at_ ->
  (main w).1 = Fatal at_ e /\ post = [EvStderr e] /\
  exit_code (main w).1 = 1%Z.
Proof.
  intros Htr Hsite.
  pose proof (Run_trace_shape w _ _ (main_Run w)) as Hshape.
  assert (Hfail : checked_failure (EvCall c (Some e)) = true)
    by (cbn; rewrite Hsite; reflexivity).
  destruct (main w).1 as [|at0 e0].
  - exfalso. exact (free_of_no_split _ _ _ _ _ Hshape Hfail Htr).
  - destruct Hshape as (l & c0 & Hl & Hfree & Hsite0).
    rewrite Hl in Htr.
    destruct (split_first checked_failure l _ [EvStderr e0] pre _ post
                Hfree eq_refl Hfail Htr) as (_ & Hev & Hpost).
    injection Hev as -> ->.
    rewrite Hsite in Hsite0. injection Hsite0 as ->.
    split; [reflexivity | split; [exact Hpost | reflexivity]].
Qed.

(** ** The successful run *)



(** ** The check after the loop *)

(** C4. When [Next] answers false and the loop is left, the next thing
    the program does is to ask [Err]; the run goes on to return when
    [Err] reports nothing and is fatal, with the reported error (a query
    error), when it reports one.  The answer of [Next] alone decides
    neither. *)
Theorem loop_exit_is_checked w pre post :
  trace (main w).2 = pre ++ EvCall (CNext false) None :: post ->
  exists err rest,
    post = EvCall CErr err :: rest /\
    (main w).1 = match err with
                 | Some e => Fatal AtErr e
                 | None => Returned
                 end /\
    (forall e, err = Some e ->
               rest = [EvStderr e] /\
               fatal_kind (main w).1 = Some QueryError).
Proof.
  intros Htr. pose proof (main_Run w) as HR.
  destruct (main w) as [o s]. cbn [fst snd] in *.
  assert (Hexit : loop_exit (EvCall (CNext false) None) = true)
    by reflexivity.
  inversion HR; subst; cbn [trace] in Htr;
    try (exfalso;
         refine (free_of_no_split loop_exit _ _ _ _ _ Hexit Htr);
         first [ reflexivity
               | apply free_of_app;
                 [apply tr_fetched_no_exit | reflexivity] ]).
  - destruct (split_first loop_exit (tr_fetched n id us) _
                [EvCall CErr (Some e); EvStderr e] pre _ post
                (tr_fetched_no_exit n id us) eq_refl Hexit Htr)
      as (_ & _ & ->).
    exists (Some e), [EvStderr e]. split; [reflexivity |].
    split; [reflexivity |].
    intros e' He'. injection He' as <-. split; reflexivity.
  - destruct (split_first loop_exit (tr_fetched n id us) _
                [EvCall CErr None; EvCall CRowsClose ec; EvCall CDBClose ed]
                pre _ post
                (tr_fetched_no_exit n id us) eq_refl Hexit Htr)
      as (_ & _ & ->).
    exists None, [EvCall CRowsClose ec; EvCall CDBClose ed].
    split; [reflexivity |]. split; [reflexivity |].
    intros e' He'. discriminate He'.
Qed.

(** ** Decoding a row *)

Lemma scan_into_arity row p :
  length row <> 3%nat ->
  scan_into row p = ret (Some (ErrScanArity (length row) 3)).
Proof.
  intros Hlen.
  destruct row as [|c0 [|c1 [|c2 [|c3 row]]]]; try reflexivity.
  exfalso. apply Hlen. reflexivity.
Qed.

Lemma decode_well_typed row :
  (exists u, decode row = inr u) <-> well_typed_row row = true.
Proof.
  unfold decode, well_typed_row.
  destruct row as [|c0 [|c1 [|c2 [|c3 row]]]];
    try (split; [intros [u Hu]; discriminate Hu | discriminate]).
  destruct (conv_int c0), (conv_string c1), (conv_string c2);
    (split; [intros [u Hu]; (reflexivity || discriminate Hu)
            | intros Ht; (discriminate Ht || (eexists; reflexivity)) ]).
Qed.

(** C5. For a row the cursor yields, the scan into the new record
    succeeds exactly when the row has three columns that convert to an
    integer, a string and a string.  With another number of columns the
    scan reports the mismatch, no field of the record is written, nothing
    is printed and the process exits at the scan (a decode error).  When
    the row decodes, its three values are in a record allocated for this
    row, after the records already there, and that record is printed
    before the loop goes on. *)
Theorem row_decoding row rest w tr h ds :
  ((rows_Scan row (length h) (mkState w tr (h ++ [zero_User]) ds)).1
   = Go None
   <-> well_typed_row row = true)
  /\
  (length row <> 3%nat ->
   rows_loop (row :: rest) (mkState w tr h ds)
   = (Exit1 AtScan (ErrScanArity (length row) 3),
      mkState w
              (tr ++ [EvCall (CNext true) None;
                      EvCall CScan (Some (ErrScanArity (length row) 3));
                      EvStderr (ErrScanArity (length row) 3)])
              (h ++ [zero_User]) ds))
  /\
  (forall c0 c1 c2 n x y,
      row = [c0; c1; c2] ->
      conv_int c0 = Some n ->
      conv_string c1 = Some x ->
      conv_string c2 = Some y ->
      rows_loop (row :: rest) (mkState w tr h ds)
      = rows_loop rest
          (mkState w
                   (tr ++ [EvCall (CNext true) None; EvCall CScan None;
                           EvStdout (fmt_User (mkUser n x y))])
                   (h ++ [mkUser n x y]) ds)).
Proof.
  split; [| split].
  - destruct (rows_Scan_fresh row w tr h ds) as (u' & Hscan & _).
    rewrite Hscan. cbn [fst]. rewrite <- decode_well_typed.
    destruct (decode row) as [e|u]; cbn [err_of_sum].
    + split; [discriminate | intros [u Hu]; discriminate Hu].
    + split; [eexists; reflexivity | reflexivity].
  - intros Hlen.
    cbn [rows_loop].
    unfold bind at 1. cbn [emit world trace heap deferred].
    unfold bind at 1. cbn [alloc world trace heap deferred].
    unfold bind at 1. unfold rows_Scan. unfold bind at 1.
    rewrite (scan_into_arity _ _ Hlen).
    cbv beta iota zeta delta
      [bind emit ret check Fatalln world trace heap deferred].
    rewrite <- !app_assoc. reflexivity.
  - intros c0 c1 c2 n x y -> H0 H1 H2.
    apply rows_loop_cons_ok. unfold decode. rewrite H0, H1, H2. reflexivity.
Qed.

(** The loop only adds records: the ones allocated before it are left as
    they were. *)
Lemma rows_loop_heap_grows rs w tr h ds :
  exists h', heap (rows_loop rs (mkState w tr h ds)).2 = h ++ h'.
Proof.
  destruct (rows_loop_spec rs w tr h ds)
    as [(us & _ & ->) | (pre & bad & post & us & e & u' & _ & _ & _ & ->)];
    cbn [snd heap]; eexists; reflexivity.
Qed.

(** ** The liveness check *)

(** C6. When the ping fails, the process exits there with the ping's
    error (a connection error); the insert statement is never sent, and
    the world is left as the ping left it. *)
Theorem ping_failure_stops_before_insert w w1 e w2 :
  drv_open "mysql" the_dsn w = (None, w1) ->
  drv_ping w1 = (Some e, w2) ->
  (main w).1 = Fatal AtPing e /\
  fatal_kind (main w).1 = Some ConnectionError /\
  exec_count (main w).2 = 0%nat /\
  world (main w).2 = w2.
Proof.
  intros Hopen Hping. pose proof (main_Run w) as HR.
  destruct (main w) as [o s]. cbn [fst snd] in *.
  inversion HR; subst; agree.
  repeat split.
Qed.

(** ** The insert metadata *)

(** C8. After a successful insert each of the two metadata calls can
    fail, whatever the other would answer, and either failure is fatal (a
    result error): when [RowsAffected] fails nothing has been printed and
    [LastInsertId] is not asked; when [LastInsertId] fails only the
    rows-affected line has been printed.  When both succeed, the count is
    read and printed before the identifier is read and printed. *)
Theorem insert_metadata_checks w w1 w2 res w3 :
  drv_open "mysql" the_dsn w = (None, w1) ->
  drv_ping w1 = (None, w2) ->
  drv_exec insert_sql ["radovskyb"; "password123"] w2 = (inr res, w3) ->
  (forall e,
      res_RowsAffected res = inl e ->
      (main w).1 = Fatal AtRowsAffected e /\
      fatal_kind (main w).1 = Some ResultError /\
      trace (main w).2 =
        tr_connected ++
        [ev_exec None; EvCall CRowsAffected (Some e); EvStderr e] /\
      stdout (main w).2 = [])
  /\
  (forall n e,
      res_RowsAffected res = inr n ->
      res_LastInsertId res = inl e ->
      (main w).1 = Fatal AtLastInsertId e /\
      fatal_kind (main w).1 = Some ResultError /\
      trace (main w).2 =
        tr_connected ++
        [ev_exec None; EvCall CRowsAffected None; EvStdout (fmt_int n);
         EvCall CLastInsertId (Some e); EvStderr e] /\
      stdout (main w).2 = [fmt_int n])
  /\
  (forall n lid,
      res_RowsAffected res = inr n ->
      res_LastInsertId res = inr lid ->
      exists rest,
        trace (main w).2 =
          tr_connected ++
          [ev_exec None; EvCall CRowsAffected None; EvStdout (fmt_int n);
           EvCall CLastInsertId None; EvStdout (fmt_int lid)] ++ rest).
Proof.
  intros Hopen Hping Hexec. pose proof (main_Run w) as HR.
  destruct (main w) as [o s]. cbn [fst snd] in *.
  split; [| split].
  - intros e Haff. inversion HR; subst; agree. repeat split.
  - intros n e Haff Hlid. inversion HR; subst; agree. repeat split.
  - intros n lid Haff Hlid.
    inversion HR; subst; agree; cbn [trace];
      unfold tr_fetched, tr_inserted; rewrite <- ?app_assoc;
      eexists; reflexivity.
Qed.

(** ** The empty table *)

(** C9. When the query finds no row and the cursor has no fault, the
    first [Next] answers false, [Err] reports nothing, no record is
    printed (standard output holds the two insert lines only), and the
    process returns after releasing the cursor and the connection. *)
Theorem empty_table_run w w1 w2 res w3 n lid rows w4 :
  drv_open "mysql" the_dsn w = (None, w1) ->
  drv_ping w1 = (None, w2) ->
  drv_exec insert_sql ["radovskyb"; "password123"] w2 = (inr res, w3) ->
  res_RowsAffected res = inr n ->
  res_LastInsertId res = inr lid ->
  drv_query select_sql w3 = (inr rows, w4) ->
  pending rows = [] ->
  fault rows = None ->
  (main w).1 = Returned /\
  stdout (main w).2 = [fmt_int n; fmt_int lid] /\
  exists ec ed,
    trace (main w).2 =
      tr_inserted n lid ++
      [ev_query None; EvCall (CNext false) None; EvCall CErr None;
       EvCall CRowsClose ec; EvCall CDBClose ed].
Proof.
  intros Hopen Hping Hexec Haff Hlid Hquery Hnil Hfault.
  pose proof (main_Run w) as HR.
  destruct (main w) as [o s]. cbn [fst snd] in *.
  inversion HR; subst; agree.
  - match goal with
    | H : pending _ = _ ++ _ :: _ |- _ =>
        rewrite Hnil in H; destruct pre; discriminate H
    end.
  - match goal with
    | H : Forall2 decodes (pending _) _ |- _ =>
        rewrite Hnil in H; inversion H; subst
    end.
    split; [reflexivity |]. split; [reflexivity |].
    exists ec, ed. unfold tr_fetched. cbn [trace row_events flat_map].
    rewrite <- app_assoc. reflexivity.
Qed.

(** ** The record built for the insert *)

(** C10. The record built at line 50 is written once, when it is built:
    at whatever point the process ends after that, the record still has
    identifier 0 and the user name and password it was given.  (Before
    that point no record exists.)  The rows read back go to other
    records. *)
Theorem inserted_record_is_never_updated w :
  match (main w).1 with
  | Fatal AtOpen _ | Fatal AtPing _ => heap (main w).2 = []
  | _ =>
      (heap (main w).2) !! 0%nat = Some (mkUser 0 "radovskyb" "password123")
  end.
Proof.
  pose proof (main_Run w) as HR.
  destruct (main w) as [o s]. cbn [fst snd] in *.
  inversion HR; subst; reflexivity.
Qed.

(** ** Releases *)

(** X2. A run that ends in [log.Fatalln] has called neither
    [db.Close()] nor [rows.Close()]: [os.Exit] does not run the deferred
    calls. *)
Lemma fatal_run_releases_nothing w at_ e s :
  main w = (Fatal at_ e, s) ->
  releases CDBClose s = 0%nat /\ releases CRowsClose s = 0%nat.
Proof.
  intros Hmain. apply main_inv in Hmain.
  inversion Hmain; subst; unfold releases, calls; cbn [trace];
    rewrite ?calls_tr_fetched by reflexivity; split; reflexivity.
Qed.

(** X1. A run that returns has called [rows.Close()] once and
    [db.Close()] once, and has no deferred call left. *)
Lemma returned_run_releases_once w s :
  main w = (Returned, s) ->
  releases CDBClose s = 1%nat /\ releases CRowsClose s = 1%nat /\
  deferred s = [].
Proof.
  intros Hmain. apply main_inv in Hmain.
  inversion Hmain; subst; unfold releases, calls; cbn [trace deferred].
  rewrite !calls_tr_fetched by reflexivity. repeat split.
Qed.

(** ** The run in terms of the loop *)

(** The loop on rows that all decode. *)
Lemma rows_loop_prefix pre us rest : forall w tr h ds,
  Forall2 decodes pre us ->
  rows_loop (pre ++ rest) (mkState w tr h ds)
  = rows_loop rest (mkState w (tr ++ row_events us) (h ++ us) ds).
Proof.
  intros w tr h ds Hall. revert tr h.
  induction Hall as [|row u pre us Hdec Hall IH]; intros tr h.
  - cbn [app row_events flat_map]. rewrite !app_nil_r. reflexivity.
  - cbn [app]. rewrite (rows_loop_cons_ok row (pre ++ rest) u w tr h ds Hdec).
    rewrite IH. rewrite <- !app_assoc. reflexivity.
Qed.

(** Once the query has answered, what is left of [main] is the loop, the
    [Err] check and the return. *)
Lemma main_after_query w w1 w2 res w3 n lid rows w4 :
  drv_open "mysql" the_dsn w = (None, w1) ->
  drv_ping w1 = (None, w2) ->
  drv_exec insert_sql ["radovskyb"; "password123"] w2 = (inr res, w3) ->
  res_RowsAffected res = inr n ->
  res_LastInsertId res = inr lid ->
  drv_query select_sql w3 = (inr rows, w4) ->
  main w =
  match rows_loop (pending rows)
          (mkState w4 (tr_inserted n lid ++ [ev_query None]) [new_user]
                   [DeferRowsClose; DeferDBClose]) with
  | (Go _, s) =>
      match fault rows with
      | Some e =>
          (Fatal AtErr e,
           mkState (world s)
                   (trace s ++ [EvCall CErr (Some e); EvStderr e])
                   (heap s) (deferred s))
      | None =>
          (Returned,
           return_from_main
             (mkState (world s) (trace s ++ [EvCall CErr None])
                      (heap s) (deferred s)))
      end
  | (Exit1 at_ e, s) => (Fatal at_ e, s)
  end.
Proof.
  unfold the_dsn, insert_sql, select_sql.
  intros Hopen Hping Hexec Haff Hlid Hquery.
  unfold main, main_body. exec_step.
  rewrite Hopen. exec_step. rewrite Hping. exec_step.
  rewrite Hexec. exec_step. rewrite Haff. exec_step.
  rewrite Hlid. exec_step. rewrite Hquery. exec_step.
  unfold tr_inserted, tr_connected, ev_open, ev_exec, ev_query, new_user,
    the_dsn, insert_sql, select_sql.
  cbn [app].
  match goal with
  | |- context [rows_loop ?rs ?st] => destruct (rows_loop rs st) as [[[]|a e] s]
  end; exec_step; [| reflexivity].
  destruct (fault rows) as [e|]; rewrite <- ?app_assoc; reflexivity.
Qed.

(** X3. When every checked step succeeds and every row decodes, [main]
    returns, whatever the two closes answer: the errors [rows.Close()] and
    [db.Close()] return are dropped.  The run ends with the decoded
    records allocated after the inserted one, one per row, and with no
    deferred call left. *)
Theorem all_steps_succeed_returns
    w w1 w2 res w3 n lid rows w4 us ec w5 ed w6 :
  drv_open "mysql" the_dsn w = (None, w1) ->
  drv_ping w1 = (None, w2) ->
  drv_exec insert_sql ["radovskyb"; "password123"] w2 = (inr res, w3) ->
  res_RowsAffected res = inr n ->
  res_LastInsertId res = inr lid ->
  drv_query select_sql w3 = (inr rows, w4) ->
  Forall2 decodes (pending rows) us ->
  fault rows = None ->
  drv_rows_close w4 = (ec, w5) ->
  drv_close w5 = (ed, w6) ->
  main w =
  (Returned,
   mkState w6
           (tr_fetched n lid us ++
            [EvCall (CNext false) None; EvCall CErr None;
             EvCall CRowsClose ec; EvCall CDBClose ed])
           (new_user :: us) []).
Proof.
  intros Hopen Hping Hexec Haff Hlid Hquery Hall Hfault Hrc Hdc.
  rewrite (main_after_query w w1 w2 res w3 n lid rows w4) by assumption.
  rewrite <- (app_nil_r (pending rows)).
  rewrite (rows_loop_prefix _ us [] _ _ _ _ Hall).
  cbn [rows_loop emit world trace heap deferred]. rewrite Hfault.
  cbv beta iota zeta delta
    [return_from_main unwind run_deferred world trace heap deferred].
  rewrite Hrc. cbv beta iota zeta delta [world trace heap deferred].
  rewrite Hdc. unfold tr_fetched.
  rewrite <- !app_assoc. reflexivity.
Qed.

(** X4. When a row does not decode, the run is fatal at that scan with
    the scan's error.  The rows before it have already been printed, after
    the two insert lines; the rows after it are never read, and the cursor
    and the connection are still waiting on the deferred stack. *)
Theorem scan_failure_partial_output
    w w1 w2 res w3 n lid rows w4 pre bad post us e :
  drv_open "mysql" the_dsn w = (None, w1) ->
  drv_ping w1 = (None, w2) ->
  drv_exec insert_sql ["radovskyb"; "password123"] w2 = (inr res, w3) ->
  res_RowsAffected res = inr n ->
  res_LastInsertId res = inr lid ->
  drv_query select_sql w3 = (inr rows, w4) ->
  pending rows = pre ++ bad :: post ->
  Forall2 decodes pre us ->
  decode bad = inl e ->
  (main w).1 = Fatal AtScan e /\
  stdout (main w).2 = fmt_int n :: fmt_int lid :: map fmt_User us /\
  trace (main w).2 =
    tr_fetched n lid us ++
    [EvCall (CNext true) None; EvCall CScan (Some e); EvStderr e] /\
  world (main w).2 = w4 /\
  deferred (main w).2 = [DeferRowsClose; DeferDBClose].
Proof.
  intros Hopen Hping Hexec Haff Hlid Hquery Hrows Hall Hbad.
  rewrite (main_after_query w w1 w2 res w3 n lid rows w4) by assumption.
  rewrite Hrows, (rows_loop_prefix _ us _ _ _ _ _ Hall).
  destruct (rows_loop_cons_bad bad post e w4
              ((tr_inserted n lid ++ [ev_query None]) ++ row_events us)
              ([new_user] ++ us) [DeferRowsClose; DeferDBClose] Hbad)
    as (u' & ->).
  unfold stdout. cbn [fst snd trace world deferred].
  assert (Htr : ((tr_inserted n lid ++ [ev_query None]) ++ row_events us) ++
                [EvCall (CNext true) None; EvCall CScan (Some e); EvStderr e]
                = tr_fetched n lid us ++
                  [EvCall (CNext true) None; EvCall CScan (Some e);
                   EvStderr e]).
  { unfold tr_fetched. rewrite <- !app_assoc. reflexivity. }
  rewrite Htr, stdout_tr_fetched. cbn. rewrite app_nil_r.
  repeat split.
Qed.

(** X5. When every row decodes and the iteration ended on a fault, the
    run is fatal at the [Err] check with that fault, after every row the
    cursor yielded has been printed: the fault is reported last, not
    before the rows read ahead of it. *)
Theorem iteration_fault_after_rows
    w w1 w2 res w3 n lid rows w4 us e :
  drv_open "mysql" the_dsn w = (None, w1) ->
  drv_ping w1 = (None, w2) ->
  drv_exec insert_sql ["radovskyb"; "password123"] w2 = (inr res, w3) ->
  res_RowsAffected res = inr n ->
  res_LastInsertId res = inr lid ->
  drv_query select_sql w3 = (inr rows, w4) ->
  Forall2 decodes (pending rows) us ->
  fault rows = Some e ->
  (main w).1 = Fatal AtErr e /\
  stdout (main w).2 = fmt_int n :: fmt_int lid :: map fmt_User us /\
  trace (main w).2 =
    tr_fetched n lid us ++
    [EvCall (CNext false) None; EvCall CErr (Some e); EvStderr e] /\
  deferred (main w).2 = [DeferRowsClose; DeferDBClose].
Proof.
  intros Hopen Hping Hexec Haff Hlid Hquery Hall Hfault.
  rewrite (main_after_query w w1 w2 res w3 n lid rows w4) by assumption.
  rewrite <- (app_nil_r (pending rows)).
  rewrite (rows_loop_prefix _ us [] _ _ _ _ Hall).
  cbn [rows_loop emit world trace heap deferred]. rewrite Hfault.
  unfold stdout. cbn [fst snd trace world deferred].
  assert (Htr : (((tr_inserted n lid ++ [ev_query None]) ++ row_events us) ++
                 [EvCall (CNext false) None]) ++
                [EvCall CErr (Some e); EvStderr e]
                = tr_fetched n lid us ++
                  [EvCall (CNext false) None; EvCall CErr (Some e);
                   EvStderr e]).
  { unfold tr_fetched. rewrite <- !app_assoc. reflexivity. }
  rewrite Htr, stdout_tr_fetched. cbn. rewrite app_nil_r.
  repeat split.
Qed.

(** ** Why a run is fatal *)

(** X6. A fatal run always has a cause: its trace ends with a checked
    call that returned the error the run is fatal with, at the check the
    run is fatal at, followed by the one line [log.Fatalln] writes; no
    checked call before it had failed. *)
Theorem fatal_exit_has_cause w at_ e :
  (main w).1 = Fatal at_ e ->
  exists pre c,
    trace (main w).2 = pre ++ [EvCall c (Some e); EvStderr e] /\
    site_of c = Some at_ /\
    free_of checked_failure pre.
Proof.
  intros Hfatal.
  pose proof (Run_trace_shape w _ _ (main_Run w)) as Hshape.
  rewrite Hfatal in Hshape.
  destruct Hshape as (l & c & Htr & Hfree & Hsite).
  exists l, c. auto.
Qed.

(** X7. [main] returns exactly when no checked call of the run returned
    an error. *)
Theorem returns_iff_no_failure w :
  (main w).1 = Returned <-> free_of checked_failure (trace (main w).2).
Proof.
  pose proof (Run_trace_shape w _ _ (main_Run w)) as Hshape.
  destruct (main w).1 as [|at_ e].
  - split; [intros _; exact Hshape | reflexivity].
  - split; [discriminate |]. intros Hfree. exfalso.
    destruct Hshape as (l & c & Htr & _ & Hsite).
    refine (free_of_no_split checked_failure _ l (EvCall c (Some e))
              [EvStderr e] Hfree _ Htr).
    cbn. rewrite Hsite. reflexivity.
Qed.

(** ** What a run has printed and sent *)

(** X8. What is on standard output when the process ends: nothing when
    it ends at or before the rows-affected check, one line when it ends at
    the last-insert-id check, two lines when the query fails, and at least
    those two lines in every other case. *)
Theorem output_before_failure w :
  match (main w).1 with
  | Fatal AtOpen _ | Fatal AtPing _ | Fatal AtExec _
  | Fatal AtRowsAffected _ => stdout (main w).2 = []
  | Fatal AtLastInsertId _ => exists a, stdout (main w).2 = [a]
  | Fatal AtQuery _ => exists a b, stdout (main w).2 = [a; b]
  | Fatal AtScan _ | Fatal AtErr _ | Returned =>
      exists a b recs, stdout (main w).2 = a :: b :: recs
  end.
Proof.
  pose proof (main_Run w) as HR.
  destruct (main w) as [o s]. cbn [fst snd] in *.
  inversion HR; subst; unfold stdout; cbn [trace];
    rewrite ?stdout_tr_fetched; try reflexivity;
    repeat eexists; reflexivity.
Qed.

(** X9. The insert statement is sent exactly once in every run that gets
    past the ping, with the user name and the password of the record as
    its two parameters, and never otherwise: a later failure neither
    repeats it nor takes it back. *)
Theorem insert_sent_once w :
  filter (fun c => is_Exec c = true) (calls (main w).2)
  = match (main w).1 with
    | Fatal AtOpen _ | Fatal AtPing _ => []
    | _ => [CExec insert_sql [Username new_user; Password new_user]]
    end.
Proof.
  pose proof (main_Run w) as HR.
  destruct (main w) as [o s]. cbn [fst snd] in *.
  inversion HR; subst; unfold calls; cbn [trace];
    rewrite ?calls_tr_fetched by reflexivity; reflexivity.
Qed.

(** ** Deferred calls and the loop, on any state *)

Lemma unwind_spec ds : forall w tr h,
  calls (unwind ds (mkState w tr h [])) = omap call_of tr ++ map close_call ds
  /\ stdout (unwind ds (mkState w tr h [])) = omap stdout_line tr
  /\ heap (unwind ds (mkState w tr h [])) = h
  /\ deferred (unwind ds (mkState w tr h [])) = [].
Proof.
  induction ds as [|d ds IH]; intros w tr h.
  - cbn. rewrite app_nil_r. repeat split.
  - cbn [unwind]. destruct d; cbn [run_deferred world trace heap deferred].
    + destruct (drv_close w) as [err w'].
      destruct (IH w' (tr ++ [EvCall CDBClose err]) h) as (Hc & Ho & Hh & Hd).
      rewrite Hc, Ho, Hh, Hd, !omap_app. cbn. rewrite app_nil_r.
      rewrite <- app_assoc. repeat split.
    + destruct (drv_rows_close w) as [err w'].
      destruct (IH w' (tr ++ [EvCall CRowsClose err]) h)
        as (Hc & Ho & Hh & Hd).
      rewrite Hc, Ho, Hh, Hd, !omap_app. cbn. rewrite app_nil_r.
      rewrite <- app_assoc. repeat split.
Qed.

(** The deferred calls at the return of [main], on any state: each is
    made once, the most recently deferred first; they print nothing and
    leave the records as they are. *)
Lemma deferred_calls_run_in_reverse s :
  calls (return_from_main s) = calls s ++ map close_call (deferred s) /\
  stdout (return_from_main s) = stdout s /\
  heap (return_from_main s) = heap s /\
  deferred (return_from_main s) = [].
Proof.
  unfold return_from_main.
  exact (unwind_spec (deferred s) (world s) (trace s) (heap s)).
Qed.

(** X11. The loop, from any state and on any rows: it defers nothing,
    only adds to the trace, and only adds records, leaving those already
    allocated as they were.  When it ends normally it has added one
    record for each row, the row's decoded values, and printed each of
    them, in order; when it exits, it has added at most one record for
    each row and printed all of them but the last, the one the failed
    scan was filling. *)
Theorem rows_loop_frame rs s :
  exists evs recs,
    deferred (rows_loop rs s).2 = deferred s /\
    trace (rows_loop rs s).2 = trace s ++ evs /\
    heap (rows_loop rs s).2 = heap s ++ recs /\
    match (rows_loop rs s).1 with
    | Go _ =>
        Forall2 decodes rs recs /\
        omap stdout_line evs = map fmt_User recs
    | Exit1 _ _ =>
        (length recs <= length rs)%nat /\
        omap stdout_line evs = map fmt_User (removelast recs)
    end.
Proof.
  destruct s as [w tr h ds].
  destruct (rows_loop_spec rs w tr h ds)
    as [(us & Hall & ->)
       | (pre & bad & post & us & e & u' & -> & Hall & _ & ->)];
    cbn [fst snd world trace heap deferred].
  - exists (row_events us ++ [EvCall (CNext false) None]), us.
    repeat split.
    + exact Hall.
    + rewrite omap_app, stdout_row_events. cbn. apply app_nil_r.
  - exists (row_events us ++
            [EvCall (CNext true) None; EvCall CScan (Some e); EvStderr e]),
      (us ++ [u']).
    repeat split.
    + rewrite !length_app. cbn [length].
      rewrite (Forall2_length _ _ _ Hall). lia.
    + rewrite omap_app, stdout_row_events, removelast_last.
      cbn. apply app_nil_r.
Qed.

End RunnerFacts.

(** * Runs on concrete worlds *)

#[local] Existing Instance MemDB.driver.
#[local] Existing Instance Scripted.driver.

(** ** The in-memory server *)

(** C1. Release on every exit path does not hold on the fatal ones.  On
    the unreachable host the run ends at the ping check: [log.Fatalln]
    exits, the deferred [db.Close()] is still on the stack and never runs,
    no close call was made, and the server still counts one open handle. *)
Theorem fatal_exit_skips_deferred_close :
  (main (Drv := MemDB.driver) MemDB.unreachable).1 = Fatal AtPing refused /\
  deferred (main (Drv := MemDB.driver) MemDB.unreachable).2
  = [DeferDBClose] /\
  releases CDBClose (main (Drv := MemDB.driver) MemDB.unreachable).2
  = 0%nat /\
  MemDB.open_handles (world (main (Drv := MemDB.driver) MemDB.unreachable).2)
  = 1%nat.
Proof. repeat split. Qed.

(** The same happens after the query: a scan that fails leaves both the
    cursor and the connection unreleased. *)
Example scan_failure_leaves_both_open :
  (main (Drv := MemDB.driver) short_row_db).1
  = Fatal AtScan (ErrScanArity 2 3) /\
  deferred (main (Drv := MemDB.driver) short_row_db).2
  = [DeferRowsClose; DeferDBClose] /\
  releases CRowsClose (main (Drv := MemDB.driver) short_row_db).2 = 0%nat /\
  releases CDBClose (main (Drv := MemDB.driver) short_row_db).2 = 0%nat /\
  MemDB.open_cursors (world (main (Drv := MemDB.driver) short_row_db).2)
  = 1%nat /\
  MemDB.open_handles (world (main (Drv := MemDB.driver) short_row_db).2)
  = 1%nat.
Proof. repeat split. Qed.

(** The run on a working server with an empty table: one row inserted,
    read back and printed, and both resources released. *)
Example fresh_run :
  (main (Drv := MemDB.driver) MemDB.fresh).1 = Returned /\
  stdout (main (Drv := MemDB.driver) MemDB.fresh).2
  = ["1"; "1"; "&{1 radovskyb password123}"] /\
  MemDB.users (world (main (Drv := MemDB.driver) MemDB.fresh).2)
  = [[MemDB.VInt 1; MemDB.VText "radovskyb"; MemDB.VText "password123"]] /\
  MemDB.open_handles (world (main (Drv := MemDB.driver) MemDB.fresh).2)
  = 0%nat /\
  MemDB.open_cursors (world (main (Drv := MemDB.driver) MemDB.fresh).2)
  = 0%nat.
Proof. repeat split. Qed.

(** The identifier the server gave to the new row is printed, and the
    record built for the insert still has identifier 0. *)
Example fresh_run_keeps_zero_id :
  nth_error (stdout (main (Drv := MemDB.driver) MemDB.fresh).2) 1 = Some "1"
  /\
  Id <$> (heap (main (Drv := MemDB.driver) MemDB.fresh).2) !! 0%nat
  = Some 0%Z.
Proof. split; reflexivity. Qed.

(** On the unreachable host the table is left empty. *)
Example unreachable_run_inserts_nothing :
  MemDB.users (world (main (Drv := MemDB.driver) MemDB.unreachable).2) = [].
Proof. reflexivity. Qed.

Lemma first_error_is_fatal_witness :
  trace (main (Drv := MemDB.driver) MemDB.unreachable).2
  = [ev_open None] ++ EvCall CPing (Some refused) :: [EvStderr refused] /\
  site_of CPing = Some AtPing /\
  (main (Drv := MemDB.driver) MemDB.unreachable).1 = Fatal AtPing refused /\
  [EvStderr refused] = [EvStderr refused] /\
  exit_code (main (Drv := MemDB.driver) MemDB.unreachable).1 = 1%Z.
Proof.
  split; [reflexivity |]. split; [reflexivity |].
  apply (first_error_is_fatal (Drv := MemDB.driver) MemDB.unreachable
           [ev_open None] CPing refused [EvStderr refused] AtPing);
    reflexivity.
Defined.



Lemma ping_failure_stops_before_insert_witness :
  drv_open "mysql" the_dsn MemDB.unreachable
  = (None, MemDB.with_handles 1 MemDB.unreachable) /\
  drv_ping (MemDB.with_handles 1 MemDB.unreachable)
  = (Some refused, MemDB.with_handles 1 MemDB.unreachable) /\
  (main (Drv := MemDB.driver) MemDB.unreachable).1 = Fatal AtPing refused /\
  fatal_kind (main (Drv := MemDB.driver) MemDB.unreachable).1
  = Some ConnectionError /\
  exec_count (main (Drv := MemDB.driver) MemDB.unreachable).2 = 0%nat /\
  world (main (Drv := MemDB.driver) MemDB.unreachable).2
  = MemDB.with_handles 1 MemDB.unreachable.
Proof.
  split; [reflexivity |]. split; [reflexivity |].
  apply (ping_failure_stops_before_insert (Drv := MemDB.driver)
           MemDB.unreachable (MemDB.with_handles 1 MemDB.unreachable)
           refused (MemDB.with_handles 1 MemDB.unreachable));
    reflexivity.
Defined.

(** ** Scripted answers *)

(** The loop sees the same answers from [Next] on the two streams; only
    [Err] tells them apart. *)
Example next_alone_does_not_tell :
  (exists tl,
      trace (main whole_stream).2
      = tr_fetched 1 1 [alice] ++ EvCall (CNext false) None :: tl /\
      (main whole_stream).1 = Returned)
  /\
  (exists tl,
      trace (main broken_stream).2
      = tr_fetched 1 1 [alice] ++ EvCall (CNext false) None :: tl /\
      (main broken_stream).1 = Fatal AtErr eof).
Proof.
  split.
  - exists [EvCall CErr None; EvCall CRowsClose None; EvCall CDBClose None].
    split; reflexivity.
  - exists [EvCall CErr (Some eof); EvStderr eof].
    split; reflexivity.
Qed.

Lemma loop_exit_is_checked_witness :
  trace (main broken_stream).2
  = tr_fetched 1 1 [alice] ++
    EvCall (CNext false) None :: [EvCall CErr (Some eof); EvStderr eof] /\
  exists err rest,
    [EvCall CErr (Some eof); EvStderr eof] = EvCall CErr err :: rest /\
    (main broken_stream).1 = match err with
                             | Some e => Fatal AtErr e
                             | None => Returned
                             end /\
    (forall e, err = Some e ->
               rest = [EvStderr e] /\
               fatal_kind (main broken_stream).1 = Some QueryError).
Proof.
  split; [reflexivity |].
  apply (loop_exit_is_checked (Drv := Scripted.driver) broken_stream
           (tr_fetched 1 1 [alice])
           [EvCall CErr (Some eof); EvStderr eof]).
  reflexivity.
Defined.

Lemma row_decoding_witness :
  (length [MemDB.VInt 5; MemDB.VText "a"] <> 3%nat /\
   rows_loop (Drv := MemDB.driver)
             [[MemDB.VInt 5; MemDB.VText "a"]]
             (mkState MemDB.fresh [] [] [])
   = (Exit1 AtScan (ErrScanArity 2 3),
      mkState MemDB.fresh
              [EvCall (CNext true) None;
               EvCall CScan (Some (ErrScanArity 2 3));
               EvStderr (ErrScanArity 2 3)]
              [zero_User] []))
  /\
  rows_loop (Drv := MemDB.driver) [alice_row] (mkState MemDB.fresh [] [] [])
  = rows_loop (Drv := MemDB.driver) []
      (mkState MemDB.fresh
               [EvCall (CNext true) None; EvCall CScan None;
                EvStdout (fmt_User alice)]
               [alice] []).
Proof.
  split; [split; [discriminate |] |].
  - apply (proj1 (proj2 (row_decoding (Drv := MemDB.driver)
                           [MemDB.VInt 5; MemDB.VText "a"] []
                           MemDB.fresh [] [] []))).
    discriminate.
  - apply (proj2 (proj2 (row_decoding (Drv := MemDB.driver)
                           alice_row [] MemDB.fresh [] [] []))
             (MemDB.VInt 1) (MemDB.VText "alice") (MemDB.VText "secret")
             1%Z "alice" "secret");
      reflexivity.
Defined.

Lemma insert_metadata_checks_witness :
  drv_open "mysql" the_dsn no_last_id = (None, no_last_id) /\
  drv_ping no_last_id = (None, no_last_id) /\
  drv_exec insert_sql ["radovskyb"; "password123"] no_last_id
  = (inr (mkResult (inr 1%Z) (inl MemDB.unsupported)), no_last_id) /\
  (main no_last_id).1 = Fatal AtLastInsertId MemDB.unsupported /\
  fatal_kind (main no_last_id).1 = Some ResultError /\
  trace (main no_last_id).2 =
    tr_connected ++
    [ev_exec None; EvCall CRowsAffected None; EvStdout (fmt_int 1);
     EvCall CLastInsertId (Some MemDB.unsupported);
     EvStderr MemDB.unsupported] /\
  stdout (main no_last_id).2 = [fmt_int 1].
Proof.
  split; [reflexivity |]. split; [reflexivity |]. split; [reflexivity |].
  apply (proj1 (proj2 (insert_metadata_checks (Drv := Scripted.driver)
                         no_last_id no_last_id no_last_id
                         (mkResult (inr 1%Z) (inl MemDB.unsupported))
                         no_last_id eq_refl eq_refl eq_refl))
           1%Z MemDB.unsupported);
    reflexivity.
Defined.

(** The other failure: the row count cannot be read, and the identifier
    is not asked for. *)
Example row_count_failure :
  (main no_row_count).1 = Fatal AtRowsAffected MemDB.unsupported /\
  stdout (main no_row_count).2 = [] /\
  calls (main no_row_count).2
  = [COpen "mysql" the_dsn; CPing;
     CExec insert_sql ["radovskyb"; "password123"]; CRowsAffected].
Proof. repeat split. Qed.

Lemma empty_table_run_witness :
  drv_open "mysql" the_dsn empty_table = (None, empty_table) /\
  drv_ping empty_table = (None, empty_table) /\
  drv_exec insert_sql ["radovskyb"; "password123"] empty_table
  = (inr one_insert, empty_table) /\
  res_RowsAffected one_insert = inr 1%Z /\
  res_LastInsertId one_insert = inr 1%Z /\
  drv_query select_sql empty_table = (inr (mkRows [] None), empty_table) /\
  (main empty_table).1 = Returned /\
  stdout (main empty_table).2 = [fmt_int 1; fmt_int 1] /\
  exists ec ed,
    trace (main empty_table).2 =
      tr_inserted 1 1 ++
      [ev_query None; EvCall (CNext false) None; EvCall CErr None;
       EvCall CRowsClose ec; EvCall CDBClose ed].
Proof.
  repeat (split; [reflexivity |]).
  apply (empty_table_run (Drv := Scripted.driver)
           empty_table empty_table empty_table one_insert empty_table
           1%Z 1%Z (mkRows [] None) empty_table);
    reflexivity.
Defined.

(** ** More runs *)

Lemma returned_run_releases_once_witness :
  main MemDB.fresh = (Returned, (main MemDB.fresh).2) /\
  releases CDBClose (main MemDB.fresh).2 = 1%nat /\
  releases CRowsClose (main MemDB.fresh).2 = 1%nat /\
  deferred (main MemDB.fresh).2 = [].
Proof.
  split; [vm_compute; reflexivity |].
  apply (returned_run_releases_once (Drv := MemDB.driver) MemDB.fresh).
  vm_compute. reflexivity.
Defined.

Lemma fatal_run_releases_nothing_witness :
  main short_row_db
  = (Fatal AtScan (ErrScanArity 2 3), (main short_row_db).2) /\
  releases CDBClose (main short_row_db).2 = 0%nat /\
  releases CRowsClose (main short_row_db).2 = 0%nat.
Proof.
  split; [vm_compute; reflexivity |].
  apply (fatal_run_releases_nothing (Drv := MemDB.driver) short_row_db
           AtScan (ErrScanArity 2 3)).
  vm_compute. reflexivity.
Defined.

Lemma all_steps_succeed_returns_witness :
  drv_rows_close failing_closes = (Some eof, failing_closes) /\
  drv_close failing_closes = (Some refused, failing_closes) /\
  main failing_closes =
  (Returned,
   mkState failing_closes
           (tr_fetched 1 1 [alice] ++
            [EvCall (CNext false) None; EvCall CErr None;
             EvCall CRowsClose (Some eof); EvCall CDBClose (Some refused)])
           [new_user; alice] []).
Proof.
  split; [reflexivity |]. split; [reflexivity |].
  apply (all_steps_succeed_returns (Drv := Scripted.driver)
           failing_closes failing_closes failing_closes one_insert
           failing_closes 1%Z 1%Z (mkRows [alice_row] None) failing_closes
           [alice] (Some eof) failing_closes (Some refused) failing_closes);
    try reflexivity.
  repeat constructor.
Defined.

Lemma scan_failure_partial_output_witness :
  (main bad_second_row).1 = Fatal AtScan (ErrScanColumn 0) /\
  stdout (main bad_second_row).2
  = fmt_int 1 :: fmt_int 1 :: map fmt_User [alice] /\
  trace (main bad_second_row).2 =
    tr_fetched 1 1 [alice] ++
    [EvCall (CNext true) None; EvCall CScan (Some (ErrScanColumn 0));
     EvStderr (ErrScanColumn 0)] /\
  world (main bad_second_row).2 = bad_second_row /\
  deferred (main bad_second_row).2 = [DeferRowsClose; DeferDBClose].
Proof.
  apply (scan_failure_partial_output (Drv := Scripted.driver)
           bad_second_row bad_second_row bad_second_row one_insert
           bad_second_row 1%Z 1%Z
           (mkRows [alice_row; null_id_row; alice_row] None) bad_second_row
           [alice_row] null_id_row [alice_row] [alice] (ErrScanColumn 0));
    try reflexivity.
  repeat constructor.
Defined.

Lemma iteration_fault_after_rows_witness :
  (main broken_stream).1 = Fatal AtErr eof /\
  stdout (main broken_stream).2
  = fmt_int 1 :: fmt_int 1 :: map fmt_User [alice] /\
  trace (main broken_stream).2 =
    tr_fetched 1 1 [alice] ++
    [EvCall (CNext false) None; EvCall CErr (Some eof); EvStderr eof] /\
  deferred (main broken_stream).2 = [DeferRowsClose; DeferDBClose].
Proof.
  apply (iteration_fault_after_rows (Drv := Scripted.driver)
           broken_stream broken_stream broken_stream one_insert
           broken_stream 1%Z 1%Z (mkRows [alice_row] (Some eof))
           broken_stream [alice] eof);
    try reflexivity.
  repeat constructor.
Defined.

Lemma fatal_exit_has_cause_witness :
  (main MemDB.unreachable).1 = Fatal AtPing refused /\
  exists pre c,
    trace (main MemDB.unreachable).2
    = pre ++ [EvCall c (Some refused); EvStderr refused] /\
    site_of c = Some AtPing /\
    free_of checked_failure pre.
Proof.
  split; [reflexivity |].
  apply (fatal_exit_has_cause (Drv := MemDB.driver) MemDB.unreachable
           AtPing refused).
  reflexivity.
Defined.
